(** * LangGraphAgentExecutor: the streaming translation loop

    A shallow embedding of [a2anet/executors/langgraph.py].  The executor
    drives a compiled graph, turns the messages the graph streams into
    protocol events on an event queue, and finishes with the structured
    response found in the graph's persisted state.

    Python values keep their dynamic shape ([Value]); the event queue, the
    source of fresh uuids and raised exceptions are threaded through a small
    state-and-exception monad ([Exec]). *)

From Stdlib Require Import ZArith Ascii String.
From stdpp Require Import gmap strings list pretty.

Open Scope string_scope.
Open Scope list_scope.
Set Warnings "-register-all".

(** ** Python values *)

(** The values the executor inspects at run time: message contents, tool
    arguments and the results of [json.loads].  Floats are left out. *)
Inductive Value : Type :=
| VNone
| VBool (b : bool)
| VInt (n : Z)
| VStr (s : string)
| VList (l : list Value)
| VDict (d : list (string * Value)).

(** Python truthiness, as used by [if x:] and [x and y]. *)
Definition truthy (v : Value) : bool :=
  match v with
  | VNone => false
  | VBool b => b
  | VInt n => negb (n =? 0)%Z
  | VStr s => negb (String.eqb s "")
  | VList l => match l with [] => false | _ :: _ => true end
  | VDict d => match d with [] => false | _ :: _ => true end
  end.

(** [d.get(k)]: the value stored under [k], [None] when the key is missing. *)
Fixpoint dict_get (d : list (string * Value)) (k : string) : Value :=
  match d with
  | [] => VNone
  | (k', v) :: rest => if String.eqb k' k then v else dict_get rest k
  end.

(** [v == s] for a string literal [s]. *)
Definition eq_str (v : Value) (s : string) : bool :=
  match v with
  | VStr t => String.eqb t s
  | _ => false
  end.

Definition of_optional (o : option string) : Value :=
  match o with
  | Some s => VStr s
  | None => VNone
  end.

(** ** LangChain messages *)

Record ToolCall := mkToolCall {
  tc_name : string;
  tc_args : Value;
  tc_id : option string
}.

Inductive AnyMessage : Type :=
| AIMessage (id : string) (content : Value) (tool_calls : list ToolCall)
| ToolMessage (id : string) (content : Value) (tool_call_id : string)
              (name : option string)
| OtherMessage (id : string) (content : Value).

Definition message_id (m : AnyMessage) : string :=
  match m with
  | AIMessage i _ _ => i
  | ToolMessage i _ _ _ => i
  | OtherMessage i _ => i
  end.

(** ** A2A protocol types *)

Inductive Role := agent | user.

Inductive TaskState :=
| submitted | working | input_required | completed | canceled
| failed | rejected | auth_required | unknown.

Global Instance TaskState_eq_dec : EqDecision TaskState.
Proof. solve_decision. Defined.

Inductive Part :=
| TextPart (text : Value)
| DataPart (data : Value).

Record Message := mkMessage {
  msg_contextId : string;
  msg_messageId : string;
  msg_parts : list Part;
  msg_metadata : option (list (string * Value));
  msg_role : Role;
  msg_taskId : string
}.

Record Task := mkTask {
  task_id : string;
  task_contextId : string
}.

Record Artifact := mkArtifact {
  art_artifactId : string;
  art_name : string;
  art_description : string;
  art_parts : list Part
}.

Record TaskStatusUpdateEvent := mkStatusUpdate {
  su_taskId : string;
  su_contextId : string;
  su_state : TaskState;
  su_message : option Message;
  su_final : bool
}.

Record TaskArtifactUpdateEvent := mkArtifactUpdate {
  au_artifact : Artifact;
  au_contextId : string;
  au_taskId : string
}.

(** What the event queue receives. *)
Inductive Event :=
| EvTask (t : Task)
| EvStatus (e : TaskStatusUpdateEvent)
| EvArtifact (e : TaskArtifactUpdateEvent).

Record RequestContext := mkRequestContext {
  message : option Message;
  current_task : option Task
}.

(** ** The graph *)

(** Modelled from the spec: [a2anet.types.langgraph.StructuredResponse]
    is declared outside this file.  Section 3 of the specification gives
    its attributes: an outcome state drawn from an enumeration, a
    human-readable message, an artifact title, an artifact description and
    an artifact output payload (a string, section 4.6). *)
Record StructuredResponse := mkStructuredResponse {
  task_state : TaskState;
  task_state_message : string;
  artifact_title : string;
  artifact_description : string;
  artifact_output : string
}.

(** A value stored in the graph state: nothing, a structured response, or
    any other Python value. *)
Inductive StateValue :=
| SNone
| SStructured (r : StructuredResponse)
| SOther (v : Value).

Record StateSnapshot := mkStateSnapshot {
  values : gmap string StateValue
}.

Record RunnableConfig := mkRunnableConfig {
  thread_id : string
}.

Record Inputs := mkInputs {
  in_messages : list (string * string)
}.

(** One tick of [astream(..., stream_mode="values")]: the messages
    accumulated so far. *)
Record StreamEvent := mkStreamEvent {
  messages : list AnyMessage
}.

(** The compiled graph as the executor sees it: the events one run streams,
    and the snapshot read back once the stream is exhausted. *)
Record CompiledStateGraph := mkGraph {
  astream : Inputs -> RunnableConfig -> list StreamEvent;
  get_state : RunnableConfig -> StateSnapshot
}.

Record LangGraphAgentExecutor := mkExecutor {
  graph : CompiledStateGraph
}.

(** ** Exceptions and the execution monad *)

Inductive Exn :=
| Exception (msg : string)
| IndexError
| AttributeError.

(** The two ways [json.loads] fails that the handlers catch. *)
Inductive LoadError := JSONDecodeError | TypeError.

Inductive Outcome (A : Type) :=
| Ok (a : A)
| Raise (e : Exn).
Arguments Ok {A} a.
Arguments Raise {A} e.

(** The event queue (oldest event first) and the number of uuids drawn. *)
Record World := mkWorld {
  sink : list Event;
  next_uuid : nat
}.

Definition Exec (A : Type) : Type := World -> Outcome A * World.

Global Instance Exec_ret : MRet Exec := fun A a w => (Ok a, w).

Global Instance Exec_bind : MBind Exec := fun A B f m w =>
  match m w with
  | (Ok a, w') => f a w'
  | (Raise e, w') => (Raise e, w')
  end.

Definition raise {A} (e : Exn) : Exec A := fun w => (Raise e, w).

(** [event_queue.enqueue_event(e)] *)
Definition enqueue_event (e : Event) : Exec unit :=
  fun w => (Ok tt, {| sink := sink w ++ [e]; next_uuid := next_uuid w |}).

(** [for x in l: body(x)] *)
Fixpoint for_each {A} (l : list A) (body : A -> Exec unit) : Exec unit :=
  match l with
  | [] => mret tt
  | x :: rest => body x;; for_each rest body
  end.

(** ** Collaborators outside the repository *)

Class Externals := mkExternals {
  (** [json.loads]: the parsed value, or one of its two failures, a
      [JSONDecodeError] on a malformed document and a [TypeError] on an
      argument that is not text. *)
  json_loads : Value -> LoadError + Value;
  (** the n-th value [str(uuid.uuid4())] returns *)
  uuid4 : nat -> string;
  (** [a2a.utils.new_task] *)
  new_task : Message -> Task;
  (** [RequestContext.get_user_input] *)
  get_user_input : RequestContext -> string
}.

(** [TaskUpdater(event_queue, task_id, context_id)].  The queue it holds is
    the one queue of the [World]. *)
Record TaskUpdater := mkTaskUpdater {
  tu_task_id : string;
  tu_context_id : string
}.

(** ** The executor *)

Section Executor.
Context `{ext : Externals}.

(** [str(uuid.uuid4())] *)
Definition fresh_uuid : Exec string :=
  fun w => (Ok (uuid4 (next_uuid w)),
            {| sink := sink w; next_uuid := S (next_uuid w) |}).

(** [a2a.utils.new_agent_text_message(text, context_id, task_id)]: an agent
    message with a fresh id whose only part is the text. *)
Definition new_agent_text_message (text : Value) (context_id task_id : string)
  : Exec Message :=
  mid ← fresh_uuid;
  mret {| msg_contextId := context_id;
          msg_messageId := mid;
          msg_parts := [TextPart text];
          msg_metadata := None;
          msg_role := agent;
          msg_taskId := task_id |}.

(** [a2a.utils.new_data_artifact(name, data, description)] *)
Definition new_data_artifact (name description : string) (data : Value)
  : Exec Artifact :=
  aid ← fresh_uuid;
  mret {| art_artifactId := aid;
          art_name := name;
          art_description := description;
          art_parts := [DataPart data] |}.

(** [a2a.utils.new_text_artifact(name, text, description)] *)
Definition new_text_artifact (name description : string) (text : Value)
  : Exec Artifact :=
  aid ← fresh_uuid;
  mret {| art_artifactId := aid;
          art_name := name;
          art_description := description;
          art_parts := [TextPart text] |}.

(** [task_updater.update_status(state, message, final=...)] *)
Definition update_status (tu : TaskUpdater) (state : TaskState)
    (msg : Message) (final : bool) : Exec unit :=
  enqueue_event (EvStatus {| su_taskId := tu_task_id tu;
                             su_contextId := tu_context_id tu;
                             su_state := state;
                             su_message := Some msg;
                             su_final := final |}).

Definition _handle_tool_call (tool_call : ToolCall) (task : Task)
    (task_updater : TaskUpdater) : Exec unit :=
  mid ← fresh_uuid;
  let message :=
    {| msg_contextId := task_contextId task;
       msg_messageId := mid;
       msg_parts := [DataPart (tc_args tool_call)];
       msg_metadata := Some [("type", VStr "tool-call");
                             ("toolCallId", of_optional (tc_id tool_call));
                             ("toolCallName", VStr (tc_name tool_call))];
       msg_role := agent;
       msg_taskId := task_id task |} in
  update_status task_updater working message false.

(** The body of the loop over a content list. *)
Definition handle_content_item (item : Value) (task : Task)
    (task_updater : TaskUpdater) : Exec unit :=
  match item with
  | VStr _ =>
      m ← new_agent_text_message item (task_contextId task) (task_id task);
      update_status task_updater working m false
  | VDict d =>
      if eq_str (dict_get d "type") "text" && truthy (dict_get d "text")
      then
        m ← new_agent_text_message (dict_get d "text")
              (task_contextId task) (task_id task);
        update_status task_updater working m false
      else mret tt
  | _ => mret tt
  end.

Definition _handle_ai_message (content : Value) (tool_calls : list ToolCall)
    (task : Task) (task_updater : TaskUpdater) : Exec unit :=
  match content with
  | VStr s =>
      if truthy content
      then
        m ← new_agent_text_message content (task_contextId task) (task_id task);
        update_status task_updater working m false
      else mret tt
  | VList items =>
      for_each items (fun item => handle_content_item item task task_updater)
  | _ => mret tt
  end;;
  match tool_calls with
  | [] => mret tt
  | _ :: _ =>
      for_each tool_calls
        (fun tool_call => _handle_tool_call tool_call task task_updater)
  end.

Definition _handle_tool_message (content : Value) (tool_call_id : string)
    (name : option string) (task : Task) (task_updater : TaskUpdater)
  : Exec unit :=
  let tool_call_result_content := content in
  let part :=
    match json_loads tool_call_result_content with
    | inr tool_call_result => DataPart tool_call_result
    | inl JSONDecodeError | inl TypeError =>
        TextPart tool_call_result_content
    end in
  mid ← fresh_uuid;
  let message :=
    {| msg_contextId := task_contextId task;
       msg_messageId := mid;
       msg_parts := [part];
       msg_metadata := Some [("type", VStr "tool-call-result");
                             ("toolCallId", VStr tool_call_id);
                             ("toolCallName", of_optional name)];
       msg_role := agent;
       msg_taskId := task_id task |} in
  update_status task_updater working message false.

Definition _handle_structured_response_artifact
    (structured_response : StructuredResponse) (task : Task) : Exec unit :=
  artifact ←
    match json_loads (VStr (artifact_output structured_response)) with
    | inr data =>
        new_data_artifact (artifact_title structured_response)
          (artifact_description structured_response) data
    | inl JSONDecodeError | inl TypeError =>
        new_text_artifact (artifact_title structured_response)
          (artifact_description structured_response)
          (VStr (artifact_output structured_response))
    end;
  enqueue_event (EvArtifact {| au_artifact := artifact;
                               au_contextId := task_contextId task;
                               au_taskId := task_id task |}).

(** [current_state.values.get("structured_response")] *)
Definition state_get (st : StateSnapshot) (k : string) : StateValue :=
  match values st !! k with
  | Some v => v
  | None => SNone
  end.

Definition state_truthy (v : StateValue) : bool :=
  match v with
  | SNone => false
  | SStructured _ => true
  | SOther v => truthy v
  end.

Definition no_structured_response : Exn :=
  Exception
    "No structured response. `graph` must have a `structured_response` state.".

Definition _handle_structured_response (self : LangGraphAgentExecutor)
    (config : RunnableConfig) (task : Task) (task_updater : TaskUpdater)
  : Exec unit :=
  let current_state := get_state (graph self) config in
  let structured_response := state_get current_state "structured_response" in
  if negb (state_truthy structured_response)
  then raise no_structured_response
  else
    match structured_response with
    | SStructured structured_response =>
        let task_state := task_state structured_response in
        if bool_decide (task_state ≠ completed)
        then
          m ← new_agent_text_message
                (VStr (task_state_message structured_response))
                (task_contextId task) (task_id task);
          update_status task_updater task_state m true
        else
          _handle_structured_response_artifact structured_response task;;
          m ← new_agent_text_message
                (VStr (task_state_message structured_response))
                (task_contextId task) (task_id task);
          update_status task_updater completed m true
    | _ => raise AttributeError
    end.

(** Dispatch of one freshly seen message by its kind. *)
Definition dispatch (message : AnyMessage) (task : Task)
    (task_updater : TaskUpdater) : Exec unit :=
  match message with
  | AIMessage _ content tool_calls =>
      _handle_ai_message content tool_calls task task_updater
  | ToolMessage _ content tool_call_id name =>
      _handle_tool_message content tool_call_id name task task_updater
  | OtherMessage _ _ => mret tt
  end.

(** The [async for event in self.graph.astream(...)] loop, with the set of
    message ids it carries from one iteration to the next. *)
Fixpoint stream_loop (events : list StreamEvent) (message_ids : gset string)
    (task : Task) (task_updater : TaskUpdater) : Exec (gset string) :=
  match events with
  | [] => mret message_ids
  | event :: rest =>
      match last (messages event) with
      | None => raise IndexError
      | Some message =>
          if bool_decide (message_id message ∈ message_ids)
          then stream_loop rest message_ids task task_updater
          else
            let message_ids := message_ids ∪ {[message_id message]} in
            dispatch message task task_updater;;
            stream_loop rest message_ids task task_updater
      end
  end.

Definition execute (self : LangGraphAgentExecutor) (context : RequestContext)
  : Exec unit :=
  match message context with
  | None => raise (Exception "No message in context")
  | Some request =>
      let query := get_user_input context in
      task ← match current_task context with
             | Some task => mret task
             | None =>
                 let task := new_task request in
                 enqueue_event (EvTask task);; mret task
             end;
      let task_updater :=
        {| tu_task_id := task_id task; tu_context_id := task_contextId task |} in
      let inputs := {| in_messages := [("user", query)] |} in
      let config := {| thread_id := task_contextId task |} in
      stream_loop (astream (graph self) inputs config) ∅ task task_updater;;
      _handle_structured_response self config task task_updater
  end.

(** [cancel] *)
Definition cancel (context : RequestContext) : Exec unit :=
  raise (Exception "Cancel not supported").

End Executor.

(** ** Traces

    Pure descriptions of what the computations above do to the world; the
    properties below prove that they agree with the executor. *)

(** The world reached from [w] by appending [evs] to the queue and drawing
    [k] uuids. *)
Definition advance (w : World) (evs : list Event) (k : nat) : World :=
  {| sink := sink w ++ evs; next_uuid := next_uuid w + k |}.

(** [runs c w a evs k]: started in [w], [c] returns [a] after appending
    [evs] to the queue and drawing [k] uuids. *)
Definition runs {A} (c : Exec A) (w : World) (a : A) (evs : list Event)
    (k : nat) : Prop :=
  c w = (Ok a, advance w evs k).

Section TraceDefinitions.
Context `{ext : Externals}.

(** The message [new_agent_text_message] builds when it draws uuid [n]. *)
Definition text_message (n : nat) (text : Value) (context_id task_id : string)
  : Message :=
  {| msg_contextId := context_id;
     msg_messageId := uuid4 n;
     msg_parts := [TextPart text];
     msg_metadata := None;
     msg_role := agent;
     msg_taskId := task_id |}.

Definition status_event (tu : TaskUpdater) (state : TaskState)
    (msg : Message) (final : bool) : Event :=
  EvStatus {| su_taskId := tu_task_id tu;
              su_contextId := tu_context_id tu;
              su_state := state;
              su_message := Some msg;
              su_final := final |}.

(** *** Assistant messages *)
(** Section 4.2 of the specification, in its words: an element of a content
    sequence yields a text when it is a plain string, or when it is a
    structured fragment whose kind marker equals "text" and whose text
    field is non-empty; any other element shape is skipped. *)
Definition fragment_text (item : Value) : option Value :=
  match item with
  | VStr _ => Some item
  | VDict d =>
      if eq_str (dict_get d "type") "text" && truthy (dict_get d "text")
      then Some (dict_get d "text")
      else None
  | _ => None
  end.

(** The texts of an assistant message, in order: the content itself when it
    is a single non-empty plain string, the texts of its elements when it is
    a sequence, nothing otherwise. *)
Definition content_texts (content : Value) : list Value :=
  match content with
  | VStr s => if String.eqb s "" then [] else [content]
  | VList items => omap fragment_text items
  | _ => []
  end.

(** One working status event per text, the first one drawing uuid [n]. *)
Fixpoint text_events (task : Task) (tu : TaskUpdater) (n : nat)
    (texts : list Value) : list Event :=
  match texts with
  | [] => []
  | text :: rest =>
      status_event tu working
        (text_message n text (task_contextId task) (task_id task)) false
      :: text_events task tu (S n) rest
  end.

(** The message [_handle_tool_call] builds when it draws uuid [n]. *)
Definition tool_call_message (n : nat) (tool_call : ToolCall) (task : Task)
  : Message :=
  {| msg_contextId := task_contextId task;
     msg_messageId := uuid4 n;
     msg_parts := [DataPart (tc_args tool_call)];
     msg_metadata := Some [("type", VStr "tool-call");
                           ("toolCallId", of_optional (tc_id tool_call));
                           ("toolCallName", VStr (tc_name tool_call))];
     msg_role := agent;
     msg_taskId := task_id task |}.

Fixpoint tool_call_events (task : Task) (tu : TaskUpdater) (n : nat)
    (tool_calls : list ToolCall) : list Event :=
  match tool_calls with
  | [] => []
  | tool_call :: rest =>
      status_event tu working (tool_call_message n tool_call task) false
      :: tool_call_events task tu (S n) rest
  end.

(** *** Tool results, dispatch and the stream *)

(** The part [_handle_tool_message] wraps the content in. *)
Definition tool_result_part (content : Value) : Part :=
  match json_loads content with
  | inr tool_call_result => DataPart tool_call_result
  | inl _ => TextPart content
  end.

(** The message [_handle_tool_message] builds when it draws uuid [n]. *)
Definition tool_result_message (n : nat) (content : Value)
    (tool_call_id : string) (name : option string) (task : Task) : Message :=
  {| msg_contextId := task_contextId task;
     msg_messageId := uuid4 n;
     msg_parts := [tool_result_part content];
     msg_metadata := Some [("type", VStr "tool-call-result");
                           ("toolCallId", VStr tool_call_id);
                           ("toolCallName", of_optional name)];
     msg_role := agent;
     msg_taskId := task_id task |}.

(** The events the dispatch of one message appends, and the number of
    uuids it draws. *)
Definition dispatch_events (task : Task) (tu : TaskUpdater) (n : nat)
    (m : AnyMessage) : list Event :=
  match m with
  | AIMessage _ content tool_calls =>
      text_events task tu n (content_texts content)
      ++ tool_call_events task tu (n + length (content_texts content))
           tool_calls
  | ToolMessage _ content tool_call_id name =>
      [status_event tu working
         (tool_result_message n content tool_call_id name task) false]
  | OtherMessage _ _ => []
  end.

Definition dispatch_uuids (m : AnyMessage) : nat :=
  match m with
  | AIMessage _ content tool_calls =>
      length (content_texts content) + length tool_calls
  | ToolMessage _ _ _ _ => 1
  | OtherMessage _ _ => 0
  end.

Fixpoint dispatch_all_events (task : Task) (tu : TaskUpdater) (n : nat)
    (ms : list AnyMessage) : list Event :=
  match ms with
  | [] => []
  | m :: rest =>
      dispatch_events task tu n m
      ++ dispatch_all_events task tu (n + dispatch_uuids m) rest
  end.

Definition dispatch_all_uuids (ms : list AnyMessage) : nat :=
  sum_list (dispatch_uuids <$> ms).

(** The messages the loop hands to a handler, in order, when it starts
    with the ids [message_ids] already seen: the last message of each
    event whose id was not met before.  An event without messages stops
    the loop. *)
Fixpoint dispatched (events : list StreamEvent) (message_ids : gset string)
  : list AnyMessage :=
  match events with
  | [] => []
  | event :: rest =>
      match last (messages event) with
      | None => []
      | Some m =>
          if bool_decide (message_id m ∈ message_ids)
          then dispatched rest message_ids
          else m :: dispatched rest (message_ids ∪ {[message_id m]})
      end
  end.

(** How the loop ends: with the ids seen, or with the [IndexError] of
    [event["messages"][-1]] on an event without messages. *)
Fixpoint stream_outcome (events : list StreamEvent) (message_ids : gset string)
  : Outcome (gset string) :=
  match events with
  | [] => Ok message_ids
  | event :: rest =>
      match last (messages event) with
      | None => Raise IndexError
      | Some m =>
          if bool_decide (message_id m ∈ message_ids)
          then stream_outcome rest message_ids
          else stream_outcome rest (message_ids ∪ {[message_id m]})
      end
  end.

(** *** The finalizer and the whole execution *)

(** The artifact [_handle_structured_response_artifact] builds when it
    draws uuid [n]. *)
Definition artifact_of (n : nat) (r : StructuredResponse) : Artifact :=
  {| art_artifactId := uuid4 n;
     art_name := artifact_title r;
     art_description := artifact_description r;
     art_parts :=
       [match json_loads (VStr (artifact_output r)) with
        | inr data => DataPart data
        | inl _ => TextPart (VStr (artifact_output r))
        end] |}.

Definition artifact_event (n : nat) (r : StructuredResponse) (task : Task)
  : Event :=
  EvArtifact {| au_artifact := artifact_of n r;
                au_contextId := task_contextId task;
                au_taskId := task_id task |}.

(** The final status update: the outcome state and the outcome message. *)
Definition final_status (tu : TaskUpdater) (n : nat) (r : StructuredResponse)
    (task : Task) : Event :=
  status_event tu (task_state r)
    (text_message n (VStr (task_state_message r))
       (task_contextId task) (task_id task)) true.

(** The task an execution works on, and the event announcing a new one. *)
Definition task_of (context : RequestContext) (request : Message) : Task :=
  match current_task context with
  | Some task => task
  | None => new_task request
  end.

Definition task_events (context : RequestContext) (request : Message)
  : list Event :=
  match current_task context with
  | Some _ => []
  | None => [EvTask (new_task request)]
  end.

Definition updater_of (task : Task) : TaskUpdater :=
  {| tu_task_id := task_id task; tu_context_id := task_contextId task |}.

Definition config_of (task : Task) : RunnableConfig :=
  {| thread_id := task_contextId task |}.

Definition inputs_of (context : RequestContext) : Inputs :=
  {| in_messages := [("user", get_user_input context)] |}.

(** The events the graph streams during an execution. *)
Definition stream_of (self : LangGraphAgentExecutor) (context : RequestContext)
    (request : Message) : list StreamEvent :=
  astream (graph self) (inputs_of context) (config_of (task_of context request)).

(** The messages an execution dispatches and the events this appends. *)
Definition execution_dispatched (self : LangGraphAgentExecutor)
    (context : RequestContext) (request : Message) : list AnyMessage :=
  dispatched (stream_of self context request) ∅.

Definition streaming_events (self : LangGraphAgentExecutor)
    (context : RequestContext) (request : Message) (n : nat) : list Event :=
  task_events context request
  ++ dispatch_all_events (task_of context request)
       (updater_of (task_of context request)) n
       (execution_dispatched self context request).

(** The world in which the finalizer starts. *)
Definition after_stream (self : LangGraphAgentExecutor)
    (context : RequestContext) (request : Message) (w : World) : World :=
  advance w (streaming_events self context request (next_uuid w))
    (dispatch_all_uuids (execution_dispatched self context request)).

(** The streaming phase of an execution started in [w]: the task is
    resolved, announced when it is new, and the loop runs over the stream
    of the graph. *)
Definition streaming (self : LangGraphAgentExecutor) (context : RequestContext)
    (request : Message) (w : World) : Outcome (gset string) * World :=
  let task := task_of context request in
  stream_loop (stream_of self context request) ∅ task (updater_of task)
    (advance w (task_events context request) 0).

(** The event carries at least one message. *)
Definition has_messages (event : StreamEvent) : bool :=
  match messages event with
  | [] => false
  | _ :: _ => true
  end.

(** The value the finalizer reads from the persisted state. *)
Definition final_value (self : LangGraphAgentExecutor)
    (context : RequestContext) (request : Message) : option StateValue :=
  values (get_state (graph self) (config_of (task_of context request)))
    !! "structured_response".

(** The graph whose persisted state has lost the key. *)
Definition without_structured_response (g : CompiledStateGraph)
  : CompiledStateGraph :=
  {| astream := astream g;
     get_state := fun config =>
       {| values := delete "structured_response"
                      (values (get_state g config)) |} |}.

(** *** Observations on events *)

Definition is_final (ev : Event) : bool :=
  match ev with
  | EvStatus e => su_final e
  | _ => false
  end.

Definition is_artifact (ev : Event) : bool :=
  match ev with
  | EvArtifact _ => true
  | _ => false
  end.

(** A non-final status update in state working. *)
Definition is_working_update (ev : Event) : bool :=
  match ev with
  | EvStatus e => bool_decide (su_state e = working) && negb (su_final e)
  | _ => false
  end.

End TraceDefinitions.

(** *** What a status event carries *)



(** ** A reference instance of the collaborators

    The properties below hold for every instance of [Externals].  To run
    the executor on concrete inputs, [json.loads] is instantiated with a
    small parser for JSON documents made of objects, arrays, strings
    without escapes, integers, [true], [false] and [null]; any other text
    is reported as a decode error, any non-string as a type error. *)

Module Json.
Local Open Scope char_scope.

Definition dquote : ascii := Ascii.ascii_of_nat 34.

(** Writes a JSON text with apostrophes in place of double quotes. *)
Definition text (s : string) : string :=
  string_of_list_ascii
    (map (fun c => if Ascii.eqb c "'" then dquote else c)
         (list_ascii_of_string s)).

Definition is_ws (c : ascii) : bool :=
  Ascii.eqb c " " || Ascii.eqb c (Ascii.ascii_of_nat 9)
  || Ascii.eqb c (Ascii.ascii_of_nat 10) || Ascii.eqb c (Ascii.ascii_of_nat 13).

Definition digit (c : ascii) : option Z :=
  let n := Ascii.nat_of_ascii c in
  if (48 <=? n)%nat && (n <=? 57)%nat then Some (Z.of_nat (n - 48)) else None.

Fixpoint skip_ws (cs : list ascii) : list ascii :=
  match cs with
  | c :: rest => if is_ws c then skip_ws rest else cs
  | [] => []
  end.

Fixpoint digits (cs : list ascii) (acc : Z) : Z * list ascii :=
  match cs with
  | c :: rest =>
      match digit c with
      | Some d => digits rest (10 * acc + d)%Z
      | None => (acc, cs)
      end
  | [] => (acc, [])
  end.

(** An integer without sign: one digit, or several not starting with 0. *)
Definition natural (cs : list ascii) : option (Z * list ascii) :=
  match cs with
  | c :: rest =>
      match digit c with
      | Some 0%Z =>
          match rest with
          | c' :: _ =>
              match digit c' with
              | Some _ => None
              | None => Some (0%Z, rest)
              end
          | [] => Some (0%Z, rest)
          end
      | Some d => Some (digits rest d)
      | None => None
      end
  | [] => None
  end.

(** The characters up to the closing quote. *)
Fixpoint string_body (cs : list ascii) (acc : list ascii)
  : option (string * list ascii) :=
  match cs with
  | [] => None
  | c :: rest =>
      if Ascii.eqb c dquote then Some (string_of_list_ascii (rev acc), rest)
      else if Ascii.eqb c "\" then None
      else if (Ascii.nat_of_ascii c <? 32)%nat then None
      else string_body rest (c :: acc)
  end.

(** [d[k] = v] on an insertion-ordered dict. *)
Fixpoint dict_set (d : list (string * Value)) (k : string) (v : Value)
  : list (string * Value) :=
  match d with
  | [] => [(k, v)]
  | (k', v') :: rest =>
      if String.eqb k' k then (k', v) :: rest else (k', v') :: dict_set rest k v
  end.

Fixpoint value (fuel : nat) (cs : list ascii) {struct fuel}
  : option (Value * list ascii) :=
  match fuel with
  | 0 => None
  | S fuel =>
      match skip_ws cs with
      | "n" :: "u" :: "l" :: "l" :: rest => Some (VNone, rest)
      | "t" :: "r" :: "u" :: "e" :: rest => Some (VBool true, rest)
      | "f" :: "a" :: "l" :: "s" :: "e" :: rest => Some (VBool false, rest)
      | "[" :: rest =>
          match skip_ws rest with
          | "]" :: rest' => Some (VList [], rest')
          | _ =>
              match elements fuel rest with
              | Some (vs, rest') => Some (VList vs, rest')
              | None => None
              end
          end
      | "{" :: rest =>
          match skip_ws rest with
          | "}" :: rest' => Some (VDict [], rest')
          | _ =>
              match members fuel rest [] with
              | Some (d, rest') => Some (VDict d, rest')
              | None => None
              end
          end
      | "-" :: rest =>
          match natural rest with
          | Some (n, rest') => Some (VInt (- n), rest')
          | None => None
          end
      | c :: rest =>
          if Ascii.eqb c dquote then
            match string_body rest [] with
            | Some (s, rest') => Some (VStr s, rest')
            | None => None
            end
          else
            match natural (c :: rest) with
            | Some (n, rest') => Some (VInt n, rest')
            | None => None
            end
      | [] => None
      end
  end
with elements (fuel : nat) (cs : list ascii) {struct fuel}
  : option (list Value * list ascii) :=
  match fuel with
  | 0 => None
  | S fuel =>
      match value fuel cs with
      | Some (v, rest) =>
          match skip_ws rest with
          | "," :: rest' =>
              match elements fuel rest' with
              | Some (vs, rest'') => Some (v :: vs, rest'')
              | None => None
              end
          | "]" :: rest' => Some ([v], rest')
          | _ => None
          end
      | None => None
      end
  end
with members (fuel : nat) (cs : list ascii) (acc : list (string * Value))
    {struct fuel} : option (list (string * Value) * list ascii) :=
  match fuel with
  | 0 => None
  | S fuel =>
      match skip_ws cs with
      | c :: rest =>
          if Ascii.eqb c dquote then
            match string_body rest [] with
            | Some (k, rest1) =>
                match skip_ws rest1 with
                | ":" :: rest2 =>
                    match value fuel rest2 with
                    | Some (v, rest3) =>
                        match skip_ws rest3 with
                        | "," :: rest4 => members fuel rest4 (dict_set acc k v)
                        | "}" :: rest4 => Some (dict_set acc k v, rest4)
                        | _ => None
                        end
                    | None => None
                    end
                | _ => None
                end
            | None => None
            end
          else None
      | [] => None
      end
  end.

(** A whole document: one value, then only white space. *)
Definition loads (v : Value) : LoadError + Value :=
  match v with
  | VStr s =>
      let cs := list_ascii_of_string s in
      match value (2 * length cs + 2) cs with
      | Some (v, rest) =>
          match skip_ws rest with
          | [] => inr v
          | _ :: _ => inl JSONDecodeError
          end
      | None => inl JSONDecodeError
      end
  | _ => inl TypeError
  end.

End Json.

(** The reference instance, and one conversation to run it on: the user
    asks, the assistant answers with text fragments and a tool call, the
    tool result arrives and is delivered a second time, the assistant
    concludes. *)

Definition parts_text (parts : list Part) : string :=
  foldr (fun part acc =>
           match part with
           | TextPart (VStr s) => String.append s acc
           | _ => acc
           end) "" parts.

Definition reference : Externals :=
  {| json_loads := Json.loads;
     uuid4 := fun n => String.append "uuid-" (pretty n);
     new_task := fun request =>
       {| task_id := String.append "task-" (msg_messageId request);
          task_contextId := msg_contextId request |};
     get_user_input := fun context =>
       match message context with
       | Some request => parts_text (msg_parts request)
       | None => ""
       end |}.

Module Sample.

Definition request : Message :=
  {| msg_contextId := "ctx-1";
     msg_messageId := "m-0";
     msg_parts := [TextPart (VStr "weather in Paris?")];
     msg_metadata := None;
     msg_role := user;
     msg_taskId := "" |}.

Definition context : RequestContext :=
  {| message := Some request; current_task := None |}.

Definition no_message : RequestContext :=
  {| message := None; current_task := None |}.

Definition human : AnyMessage := OtherMessage "h1" (VStr "weather in Paris?").

Definition get_weather : ToolCall :=
  {| tc_name := "get_weather";
     tc_args := VDict [("city", VStr "Paris")];
     tc_id := Some "call-1" |}.

Definition ai_call : AnyMessage :=
  AIMessage "a1"
    (VList [VStr "Let me check.";
            VDict [("type", VStr "tool_use"); ("id", VStr "call-1")];
            VDict [("type", VStr "text"); ("text", VStr "Calling the tool.")];
            VDict [("type", VStr "text"); ("text", VStr "")]])
    [get_weather].

Definition tool_result : AnyMessage :=
  ToolMessage "t1" (VStr (Json.text "{'a':1}")) "call-1" (Some "get_weather").

Definition ai_done : AnyMessage := AIMessage "a2" (VStr "It is sunny.") [].

Definition first_ticks : list StreamEvent :=
  [ {| messages := [human] |};
    {| messages := [human; ai_call] |};
    {| messages := [human; ai_call; tool_result] |} ].

Definition redelivery : StreamEvent :=
  {| messages := [human; ai_call; tool_result] |}.

Definition last_ticks : list StreamEvent :=
  [ {| messages := [human; ai_call; tool_result; ai_done] |} ].

Definition stream : list StreamEvent :=
  first_ticks ++ redelivery :: last_ticks.

(** A graph that streams [events] and persists [state]. *)
Definition graph_of (events : list StreamEvent)
    (state : gmap string StateValue) : CompiledStateGraph :=
  {| astream := fun _ _ => events;
     get_state := fun _ => {| values := state |} |}.

Definition completed_response : StructuredResponse :=
  {| task_state := completed;
     task_state_message := "Sunny in Paris";
     artifact_title := "Weather";
     artifact_description := "Forecast for Paris";
     artifact_output := Json.text "{'x':1}" |}.

Definition input_required_response : StructuredResponse :=
  {| task_state := input_required;
     task_state_message := "need more info";
     artifact_title := "";
     artifact_description := "";
     artifact_output := "" |}.

Definition state_with (v : StateValue) : gmap string StateValue :=
  {[ "structured_response" := v ]}.

Definition executor (state : gmap string StateValue) : LangGraphAgentExecutor :=
  {| graph := graph_of stream state |}.

Definition world : World := {| sink := []; next_uuid := 0 |}.

Definition task : Task := {| task_id := "task-m-0"; task_contextId := "ctx-1" |}.

Definition updater : TaskUpdater :=
  {| tu_task_id := "task-m-0"; tu_context_id := "ctx-1" |}.

End Sample.

(** ** Whole executions, event by event *)

Section ExecutionTraces.
Context `{ext : Externals}.

(** How the finalizer ends: it needs a truthy value under the key, and the
    attributes of a structured response on it. *)
Definition finalizer_outcome (self : LangGraphAgentExecutor)
    (config : RunnableConfig) : Outcome unit :=
  match state_get (get_state (graph self) config) "structured_response" with
  | SNone => Raise no_structured_response
  | SStructured _ => Ok tt
  | SOther v => if truthy v then Raise AttributeError
                else Raise no_structured_response
  end.

(** The events the finalizer appends when the first uuid it draws is [n]. *)
Definition finalizer_events (self : LangGraphAgentExecutor)
    (config : RunnableConfig) (task : Task) (tu : TaskUpdater) (n : nat)
  : list Event :=
  match state_get (get_state (graph self) config) "structured_response" with
  | SStructured r =>
      if bool_decide (task_state r = completed)
      then [artifact_event n r task; final_status tu (S n) r task]
      else [final_status tu n r task]
  | _ => []
  end.

(** The outcome of an execution whose request carries [request], and the
    events it appends when started with [n] uuids drawn. *)
Definition execution_outcome (self : LangGraphAgentExecutor)
    (context : RequestContext) (request : Message) : Outcome unit :=
  match stream_outcome (stream_of self context request) ∅ with
  | Ok _ => finalizer_outcome self (config_of (task_of context request))
  | Raise e => Raise e
  end.

Definition execution_events (self : LangGraphAgentExecutor)
    (context : RequestContext) (request : Message) (n : nat) : list Event :=
  let task := task_of context request in
  streaming_events self context request n
  ++ match stream_outcome (stream_of self context request) ∅ with
     | Ok _ =>
         finalizer_events self (config_of task) task (updater_of task)
           (n + dispatch_all_uuids (execution_dispatched self context request))
     | Raise _ => []
     end.

Definition execution_uuids (self : LangGraphAgentExecutor)
    (context : RequestContext) (request : Message) : nat :=
  let task := task_of context request in
  dispatch_all_uuids (execution_dispatched self context request)
  + match stream_outcome (stream_of self context request) ∅ with
    | Ok _ =>
        length (finalizer_events self (config_of task) task (updater_of task) 0)
    | Raise _ => 0
    end.

End ExecutionTraces.

(** *** Further observations on events *)

Definition is_task (ev : Event) : bool :=
  match ev with
  | EvTask _ => true
  | _ => false
  end.


(** The event belongs to [task]: it is the task itself, or it carries the
    id and the context id of the task, on the update and on the agent
    message inside it. *)
Definition bound_to (task : Task) (ev : Event) : Prop :=
  match ev with
  | EvTask t => t = task
  | EvStatus e =>
      su_taskId e = task_id task
      /\ su_contextId e = task_contextId task
      /\ exists m, su_message e = Some m
                   /\ msg_taskId m = task_id task
                   /\ msg_contextId m = task_contextId task
                   /\ msg_role m = agent
  | EvArtifact e =>
      au_taskId e = task_id task /\ au_contextId e = task_contextId task
  end.

(** The message of an event the loop looks at. *)
Definition last_message (event : StreamEvent) : option AnyMessage :=
  last (messages event).

(** Variations on the sample conversation. *)
Module Variants.

(** Each tick reduced to its last message. *)
Definition last_only : list StreamEvent :=
  [ {| messages := [Sample.human] |};
    {| messages := [Sample.ai_call] |};
    {| messages := [Sample.tool_result] |};
    {| messages := [Sample.tool_result] |};
    {| messages := [Sample.ai_done] |} ].



(** A graph that knows the sample conversation under the thread id
    "ctx-1" only. *)
Definition graph_at_context (state : gmap string StateValue)
  : CompiledStateGraph :=
  {| astream := fun _ config =>
       if String.eqb (thread_id config) "ctx-1" then Sample.stream else [];
     get_state := fun config =>
       {| values := if String.eqb (thread_id config) "ctx-1"
                    then state else ∅ |} |}.

Definition completed_state : gmap string StateValue :=
  Sample.state_with (SStructured Sample.completed_response).

End Variants.

(** * Properties *)

(** ** Running computations *)

Lemma advance_nil w : advance w [] 0 = w.
Proof.
  destruct w as [q n]. unfold advance. simpl.
  by rewrite app_nil_r, Nat.add_0_r.
Qed.

Lemma advance_advance w evs k evs' k' :
  advance (advance w evs k) evs' k' = advance w (evs ++ evs') (k + k').
Proof.
  unfold advance. simpl. by rewrite app_assoc, Nat.add_assoc.
Qed.

Lemma runs_ret {A} (a : A) w : runs (mret a) w a [] 0.
Proof. unfold runs. by rewrite advance_nil. Qed.

Lemma runs_bind {A B} (c : Exec A) (f : A -> Exec B) w a evs k b evs' k' :
  runs c w a evs k ->
  runs (f a) (advance w evs k) b evs' k' ->
  runs (c ≫= f) w b (evs ++ evs') (k + k').
Proof.
  unfold runs. intros Hc Hf.
  unfold mbind, Exec_bind. rewrite Hc, Hf. by rewrite advance_advance.
Qed.

Lemma runs_bind_eq {A B} (c : Exec A) (f : A -> Exec B) w a evs k b evs' k'
    evs'' k'' :
  runs c w a evs k ->
  runs (f a) (advance w evs k) b evs' k' ->
  evs'' = evs ++ evs' -> k'' = k + k' ->
  runs (c ≫= f) w b evs'' k''.
Proof. intros Hc Hf -> ->. by eapply runs_bind. Qed.

Lemma runs_enqueue e w : runs (enqueue_event e) w tt [e] 0.
Proof.
  unfold runs, enqueue_event, advance. by rewrite Nat.add_0_r.
Qed.

Lemma bind_raise {A B} (c : Exec A) (f : A -> Exec B) w e w' :
  c w = (Raise e, w') -> (c ≫= f) w = (Raise e, w').
Proof. intros Hc. unfold mbind, Exec_bind. by rewrite Hc. Qed.

Lemma bind_ok {A B} (c : Exec A) (f : A -> Exec B) w a w' :
  c w = (Ok a, w') -> (c ≫= f) w = f a w'.
Proof. intros Hc. unfold mbind, Exec_bind. by rewrite Hc. Qed.

Lemma omap_cons_option_list {A B} (f : A -> option B) x l :
  omap f (x :: l) = option_list (f x) ++ omap f l.
Proof. simpl. by destruct (f x). Qed.

Section Traces.
Context `{ext : Externals}.

Lemma runs_fresh_uuid w : runs fresh_uuid w (uuid4 (next_uuid w)) [] 1.
Proof.
  unfold runs, fresh_uuid, advance. by rewrite app_nil_r, Nat.add_1_r.
Qed.

Lemma runs_new_agent_text_message text c t w :
  runs (new_agent_text_message text c t) w
       (text_message (next_uuid w) text c t) [] 1.
Proof.
  unfold new_agent_text_message.
  eapply runs_bind_eq; [apply runs_fresh_uuid | apply runs_ret | done..].
Qed.

Lemma runs_update_status tu st m final w :
  runs (update_status tu st m final) w tt [status_event tu st m final] 0.
Proof. apply runs_enqueue. Qed.

(** Sending one text: the step shared by every text branch. *)
Lemma runs_send_text tu st final text c t w :
  runs (m ← new_agent_text_message text c t; update_status tu st m final) w tt
       [status_event tu st (text_message (next_uuid w) text c t) final] 1.
Proof.
  eapply runs_bind_eq;
    [apply runs_new_agent_text_message | apply runs_update_status | done..].
Qed.



Lemma runs_handle_tool_call tool_call task tu w :
  runs (_handle_tool_call tool_call task tu) w tt
       (tool_call_events task tu (next_uuid w) [tool_call]) 1.
Proof.
  unfold _handle_tool_call.
  eapply runs_bind_eq;
    [apply runs_fresh_uuid | apply runs_update_status | done..].
Qed.

Lemma runs_handle_content_item item task tu w :
  runs (handle_content_item item task tu) w tt
       (text_events task tu (next_uuid w) (option_list (fragment_text item)))
       (length (option_list (fragment_text item))).
Proof.
  unfold handle_content_item, fragment_text.
  destruct item as [| | |s|l|d]; simpl; try apply runs_ret.
  - apply runs_send_text.
  - destruct (eq_str _ _ && truthy _); simpl;
      [apply runs_send_text | apply runs_ret].
Qed.

Lemma text_events_app task tu n ts ts' :
  text_events task tu n (ts ++ ts') =
  text_events task tu n ts ++ text_events task tu (n + length ts) ts'.
Proof.
  revert n. induction ts as [|t ts IH]; intros n; simpl.
  - by rewrite Nat.add_0_r.
  - rewrite IH. do 3 f_equal. lia.
Qed.

Lemma runs_content_items items task tu w :
  runs (for_each items (fun item => handle_content_item item task tu)) w tt
       (text_events task tu (next_uuid w) (omap fragment_text items))
       (length (omap fragment_text items)).
Proof.
  revert w. induction items as [|item items IH]; intros w.
  - apply runs_ret.
  - cbn [for_each].
    eapply runs_bind_eq; [apply runs_handle_content_item | apply IH | |].
    + rewrite omap_cons_option_list, text_events_app. done.
    + rewrite omap_cons_option_list, length_app. done.
Qed.

Lemma runs_tool_calls tool_calls task tu w :
  runs (for_each tool_calls
          (fun tool_call => _handle_tool_call tool_call task tu)) w tt
       (tool_call_events task tu (next_uuid w) tool_calls)
       (length tool_calls).
Proof.
  revert w. induction tool_calls as [|tc tcs IH]; intros w.
  - apply runs_ret.
  - cbn [for_each].
    eapply runs_bind_eq; [apply runs_handle_tool_call | apply IH | |].
    + simpl. do 3 f_equal. lia.
    + done.
Qed.

(** The whole trace of the assistant-message handler: the text events, then
    the tool-call events. *)
Lemma runs_handle_ai_message content tool_calls task tu w :
  runs (_handle_ai_message content tool_calls task tu) w tt
       (text_events task tu (next_uuid w) (content_texts content)
        ++ tool_call_events task tu
             (next_uuid w + length (content_texts content)) tool_calls)
       (length (content_texts content) + length tool_calls).
Proof.
  unfold _handle_ai_message.
  eapply runs_bind_eq with
    (evs := text_events task tu (next_uuid w) (content_texts content))
    (k := length (content_texts content)); [ | | done..].
  - destruct content as [| | |s|l|d]; simpl; try apply runs_ret.
    + destruct (String.eqb s ""); simpl;
        [apply runs_ret | apply runs_send_text].
    + apply runs_content_items.
  - destruct tool_calls as [|tc tcs]; [apply runs_ret |].
    apply (runs_tool_calls (tc :: tcs)).
Qed.

(** *** Tool results and dispatch *)

Lemma runs_handle_tool_message content tool_call_id name task tu w :
  runs (_handle_tool_message content tool_call_id name task tu) w tt
       [status_event tu working
          (tool_result_message (next_uuid w) content tool_call_id name task)
          false] 1.
Proof.
  unfold _handle_tool_message.
  eapply runs_bind_eq; [apply runs_fresh_uuid | | done..].
  unfold tool_result_message, tool_result_part.
  destruct (json_loads content) as [[]|v]; apply runs_update_status.
Qed.

Lemma runs_dispatch m task tu w :
  runs (dispatch m task tu) w tt
       (dispatch_events task tu (next_uuid w) m) (dispatch_uuids m).
Proof.
  destruct m as [i content tcs|i content tcid name|i content]; simpl.
  - apply runs_handle_ai_message.
  - apply runs_handle_tool_message.
  - apply runs_ret.
Qed.

(** The loop appends the events of the dispatched messages, one message
    after the other, whether it ends normally or not. *)
Lemma stream_loop_trace events message_ids task tu w :
  stream_loop events message_ids task tu w =
  (stream_outcome events message_ids,
   advance w
     (dispatch_all_events task tu (next_uuid w)
        (dispatched events message_ids))
     (dispatch_all_uuids (dispatched events message_ids))).
Proof.
  revert message_ids w.
  induction events as [|event rest IH]; intros ids w; simpl.
  - by rewrite advance_nil.
  - destruct (last (messages event)) as [m|]; [|by rewrite advance_nil].
    case_bool_decide as Hseen; [apply IH|].
    rewrite (bind_ok _ _ _ _ _ (runs_dispatch m task tu w)).
    rewrite IH. simpl. by rewrite advance_advance.
Qed.

Lemma text_events_working task tu n texts :
  Forall (fun ev => is_working_update ev = true) (text_events task tu n texts).
Proof.
  revert n. induction texts as [|t ts IH]; intros n; simpl;
    constructor; auto.
Qed.

Lemma tool_call_events_working task tu n tcs :
  Forall (fun ev => is_working_update ev = true)
         (tool_call_events task tu n tcs).
Proof.
  revert n. induction tcs as [|t ts IH]; intros n; simpl; constructor; auto.
Qed.

Lemma dispatch_events_working task tu n m :
  Forall (fun ev => is_working_update ev = true) (dispatch_events task tu n m).
Proof.
  destruct m; simpl.
  - apply Forall_app; split;
      [apply text_events_working | apply tool_call_events_working].
  - by repeat constructor.
  - constructor.
Qed.

Lemma dispatch_all_events_working task tu n ms :
  Forall (fun ev => is_working_update ev = true)
         (dispatch_all_events task tu n ms).
Proof.
  revert n. induction ms as [|m ms IH]; intros n; simpl; [constructor|].
  apply Forall_app; split; [apply dispatch_events_working | apply IH].
Qed.

Lemma working_update_not_final ev :
  is_working_update ev = true -> is_final ev = false /\ is_artifact ev = false.
Proof.
  destruct ev as [t|e|e]; simpl; try done.
  intros [_ Hf]%andb_true_iff. split; [|done].
  by destruct (su_final e).
Qed.

(** *** The finalizer *)

Lemma runs_handle_structured_response_artifact r task w :
  runs (_handle_structured_response_artifact r task) w tt
       [artifact_event (next_uuid w) r task] 1.
Proof.
  unfold _handle_structured_response_artifact.
  eapply runs_bind_eq with (evs := []) (k := 1);
    [ | apply runs_enqueue | done..].
  unfold artifact_of.
  destruct (json_loads (VStr (artifact_output r))) as [[]|data];
    (eapply runs_bind_eq; [apply runs_fresh_uuid | apply runs_ret | done..]).
Qed.

Lemma handle_structured_response_falsy self config task tu w :
  state_truthy
    (state_get (get_state (graph self) config) "structured_response") = false ->
  _handle_structured_response self config task tu w
  = (Raise no_structured_response, w).
Proof.
  intros Hfalsy. unfold _handle_structured_response. by rewrite Hfalsy.
Qed.

Lemma runs_handle_structured_response_other self config task tu r w :
  values (get_state (graph self) config) !! "structured_response"
    = Some (SStructured r) ->
  task_state r <> completed ->
  runs (_handle_structured_response self config task tu) w tt
       [final_status tu (next_uuid w) r task] 1.
Proof.
  intros Hget Hstate. unfold _handle_structured_response, state_get.
  rewrite Hget. simpl. rewrite bool_decide_true by done.
  apply runs_send_text.
Qed.

Lemma runs_handle_structured_response_completed self config task tu r w :
  values (get_state (graph self) config) !! "structured_response"
    = Some (SStructured r) ->
  task_state r = completed ->
  runs (_handle_structured_response self config task tu) w tt
       [artifact_event (next_uuid w) r task;
        final_status tu (S (next_uuid w)) r task] 2.
Proof.
  intros Hget Hstate. unfold _handle_structured_response, state_get.
  rewrite Hget. simpl. rewrite bool_decide_false by (rewrite Hstate; tauto).
  eapply runs_bind_eq;
    [apply runs_handle_structured_response_artifact | | done..].
  unfold final_status. rewrite Hstate. simpl.
  replace (S (next_uuid w)) with (next_uuid w + 1) by lia.
  apply (runs_send_text tu completed true _ _ _
           (advance w [artifact_event (next_uuid w) r task] 1)).
Qed.

(** *** The whole execution *)

(** With a message in the request, the execution is the stream loop, then
    the finalizer, in the world where the new task has been announced. *)
Lemma execute_unfold self context request w :
  message context = Some request ->
  let task := task_of context request in
  execute self context w
  = (stream_loop (stream_of self context request) ∅ task (updater_of task);;
     _handle_structured_response self (config_of task) task (updater_of task))
      (advance w (task_events context request) 0).
Proof.
  intros Hmsg task. unfold execute. rewrite Hmsg.
  subst task. unfold task_of, task_events, stream_of, task_of.
  destruct (current_task context) as [task|]; simpl.
  - by rewrite advance_nil.
  - unfold advance. simpl. by rewrite Nat.add_0_r.
Qed.

(** The streaming phase ends as [stream_outcome] tells and appends the
    events of the dispatched messages after the announcement of the task. *)
Lemma streaming_trace self context request w :
  streaming self context request w
  = (stream_outcome (stream_of self context request) ∅,
     after_stream self context request w).
Proof.
  unfold streaming, after_stream. rewrite stream_loop_trace, advance_advance.
  unfold streaming_events, execution_dispatched. simpl.
  by rewrite Nat.add_0_r.
Qed.

(** A stream whose events all carry a message is consumed to its end. *)
Lemma stream_completes events message_ids :
  forallb has_messages events = true ->
  exists ids, stream_outcome events message_ids = Ok ids.
Proof.
  revert message_ids.
  induction events as [|event rest IH]; intros ids Hall; simpl.
  - by exists ids.
  - simpl in Hall. apply andb_true_iff in Hall as [Hev Hrest].
    unfold has_messages in Hev.
    destruct (last (messages event)) as [m|] eqn:Hlast.
    + case_bool_decide; by apply IH.
    + apply last_None in Hlast. by rewrite Hlast in Hev.
Qed.

Lemma streaming_events_not_final self context request n :
  Forall (fun ev => is_final ev = false /\ is_artifact ev = false)
         (streaming_events self context request n).
Proof.
  unfold streaming_events, task_events. apply Forall_app; split.
  - destruct (current_task context); by repeat constructor.
  - eapply Forall_impl; [apply dispatch_all_events_working|].
    apply working_update_not_final.
Qed.

End Traces.

(** ** The reference parser on the documents of the specification *)

Example loads_object :
  Json.loads (VStr (Json.text "{'a':1}")) = inr (VDict [("a", VInt 1)]).
Proof. reflexivity. Qed.

Example loads_not_json :
  Json.loads (VStr "not json") = inl JSONDecodeError.
Proof. reflexivity. Qed.

Example loads_nested :
  Json.loads (VStr (Json.text " {'k': [1, -20, 'x', null, {'t': true}], 'k': []} "))
  = inr (VDict [("k", VList [])]).
Proof. reflexivity. Qed.

Example loads_list_content :
  Json.loads (VList [VStr "1"]) = inl TypeError.
Proof. reflexivity. Qed.

(** ** The handlers *)

Section Handlers.
Context `{ext : Externals}.

(** C9.  A request that carries no message makes [execute] raise the
    missing-input error at once: the event queue and the uuid supply are
    left exactly as they were, so no task, status or artifact event is ever
    observed. *)
Theorem execute_without_message self context w :
  message context = None ->
  execute self context w = (Raise (Exception "No message in context"), w).
Proof. intros Hmsg. unfold execute. by rewrite Hmsg. Qed.







End Handlers.

(** ** Whole executions *)

Lemma filter_none {A} (f : A -> bool) (l : list A) :
  Forall (fun x => f x = false) l -> List.filter f l = [].
Proof.
  induction 1 as [|x l Hx _ IH]; simpl; [done|]. by rewrite Hx.
Qed.

Section Executions.
Context `{ext : Externals}.

(** An execution is its streaming phase, then the finalizer unless the
    stream has failed. *)
Lemma execute_streaming self context request w :
  message context = Some request ->
  let task := task_of context request in
  execute self context w
  = match (streaming self context request w).1 with
    | Ok _ =>
        _handle_structured_response self (config_of task) task
          (updater_of task) (streaming self context request w).2
    | Raise e => (Raise e, (streaming self context request w).2)
    end.
Proof.
  intros Hmsg task. rewrite (execute_unfold _ _ _ _ Hmsg).
  unfold mbind, Exec_bind, streaming. subst task.
  by destruct (stream_loop _ _ _ _ _) as [[ids|e] w'].
Qed.

Lemma streaming_sink self context request w :
  sink (streaming self context request w).2
  = sink w ++ streaming_events self context request (next_uuid w).
Proof. by rewrite streaming_trace. Qed.

Lemma streaming_completes self context request w :
  forallb has_messages (stream_of self context request) = true ->
  exists ids, (streaming self context request w).1 = Ok ids.
Proof. rewrite streaming_trace. apply stream_completes. Qed.

Lemma streaming_events_filter_final self context request n :
  List.filter is_final (streaming_events self context request n) = [].
Proof.
  apply filter_none. eapply Forall_impl;
    [apply streaming_events_not_final | by intros ev [? ?]].
Qed.

Lemma streaming_events_filter_artifact self context request n :
  List.filter is_artifact (streaming_events self context request n) = [].
Proof.
  apply filter_none. eapply Forall_impl;
    [apply streaming_events_not_final | by intros ev [? ?]].
Qed.

(** Without a truthy structured response the execution fails, and the
    world is the one the streaming phase left. *)
Lemma execute_falsy self context request w :
  message context = Some request ->
  state_truthy
    (state_get (get_state (graph self) (config_of (task_of context request)))
       "structured_response") = false ->
  execute self context w
  = (match (streaming self context request w).1 with
     | Ok _ => Raise no_structured_response
     | Raise e => Raise e
     end, (streaming self context request w).2).
Proof.
  intros Hmsg Hfalsy. rewrite (execute_streaming _ _ _ _ Hmsg).
  destruct (streaming self context request w).1; [|done].
  by apply handle_structured_response_falsy.
Qed.

(** C5.  When the streaming phase has completed and the structured response
    has an outcome state other than completed, the execution returns
    normally, having appended one event after those of the streaming
    phase: a final status event that carries that outcome state and the
    human-readable message of the response.  It is the only final status
    event of the execution, and there is no artifact event. *)
Theorem other_outcome_one_final_status self context request r ids w :
  message context = Some request ->
  (streaming self context request w).1 = Ok ids ->
  final_value self context request = Some (SStructured r) ->
  task_state r <> completed ->
  let task := task_of context request in
  exists streamed final mid,
    execute self context w
    = (Ok tt, advance (streaming self context request w).2 [final] 1)
    /\ sink (streaming self context request w).2 = sink w ++ streamed
    /\ List.filter is_final (streamed ++ [final]) = [final]
    /\ List.filter is_artifact (streamed ++ [final]) = []
    /\ final
       = EvStatus
           {| su_taskId := task_id task;
              su_contextId := task_contextId task;
              su_state := task_state r;
              su_message :=
                Some {| msg_contextId := task_contextId task;
                        msg_messageId := mid;
                        msg_parts := [TextPart (VStr (task_state_message r))];
                        msg_metadata := None;
                        msg_role := agent;
                        msg_taskId := task_id task |};
              su_final := true |}.
Proof.
  intros Hmsg Hstream Hget Hstate task.
  set (w1 := (streaming self context request w).2).
  exists (streaming_events self context request (next_uuid w)),
         (final_status (updater_of task) (next_uuid w1) r task),
         (uuid4 (next_uuid w1)).
  split; [|split; [|split; [|split]]].
  - rewrite (execute_streaming _ _ _ _ Hmsg), Hstream.
    apply (runs_handle_structured_response_other _ _ _ _ r _ Hget Hstate).
  - apply streaming_sink.
  - rewrite List.filter_app, streaming_events_filter_final. done.
  - rewrite List.filter_app, streaming_events_filter_artifact. done.
  - done.
Qed.


(** C6.  When the persisted state lacks the "structured_response" value,
    the execution ends with a raised error, which is the
    missing-structured-response error whenever the streaming phase has
    completed.  The world is left exactly as the streaming phase left it,
    so what was emitted during streaming stays on the queue, and no final
    status event is among the events appended. *)
Theorem missing_structured_response_raises self context request w :
  message context = Some request ->
  final_value self context request = None ->
  exists e streamed,
    execute self context w = (Raise e, (streaming self context request w).2)
    /\ (forall ids, (streaming self context request w).1 = Ok ids ->
                   e = no_structured_response)
    /\ sink (streaming self context request w).2 = sink w ++ streamed
    /\ List.filter is_final streamed = [].
Proof.
  intros Hmsg Hget.
  assert (Hfalsy : state_truthy
            (state_get (get_state (graph self)
                          (config_of (task_of context request)))
               "structured_response") = false).
  { unfold state_get. unfold final_value in Hget. by rewrite Hget. }
  exists (match (streaming self context request w).1 with
          | Ok _ => no_structured_response
          | Raise e => e
          end),
         (streaming_events self context request (next_uuid w)).
  split; [|split; [|split]].
  - rewrite (execute_falsy _ _ _ _ Hmsg Hfalsy).
    by destruct (streaming self context request w).1.
  - intros ids Hok. by rewrite Hok.
  - apply streaming_sink.
  - apply streaming_events_filter_final.
Qed.

(** C10.  When the persisted state holds a falsy value, [None] for one,
    under "structured_response", the execution is the one of the same graph
    with the key removed from the state: it ends with the same raised
    error, the missing-structured-response error whenever the streaming
    phase has completed, in the world the streaming phase left, and no
    final status event is among the events appended. *)
Theorem falsy_structured_response_as_absent self context request v w :
  message context = Some request ->
  final_value self context request = Some v ->
  state_truthy v = false ->
  let absent := {| graph := without_structured_response (graph self) |} in
  final_value absent context request = None
  /\ execute self context w = execute absent context w
  /\ exists e streamed,
       execute self context w = (Raise e, (streaming self context request w).2)
       /\ (forall ids, (streaming self context request w).1 = Ok ids ->
                      e = no_structured_response)
       /\ sink (streaming self context request w).2 = sink w ++ streamed
       /\ List.filter is_final streamed = [].
Proof.
  intros Hmsg Hget Hv absent.
  assert (Habsent : final_value absent context request = None).
  { unfold final_value. simpl. apply lookup_delete_eq. }
  assert (Hfalsy : state_truthy
            (state_get (get_state (graph self)
                          (config_of (task_of context request)))
               "structured_response") = false).
  { unfold state_get. unfold final_value in Hget. by rewrite Hget. }
  assert (Hfalsy' : state_truthy
            (state_get (get_state (graph absent)
                          (config_of (task_of context request)))
               "structured_response") = false).
  { unfold state_get. unfold final_value in Habsent. by rewrite Habsent. }
  split; [done|]. split.
  - by rewrite (execute_falsy _ _ _ _ Hmsg Hfalsy),
               (execute_falsy _ _ _ _ Hmsg Hfalsy').
  - exists (match (streaming self context request w).1 with
            | Ok _ => no_structured_response
            | Raise e => e
            end),
           (streaming_events self context request (next_uuid w)).
    split; [|split; [|split]].
    + rewrite (execute_falsy _ _ _ _ Hmsg Hfalsy).
      by destruct (streaming self context request w).1.
    + intros ids Hok. by rewrite Hok.
    + apply streaming_sink.
    + apply streaming_events_filter_final.
Qed.

(** *** Message ids are dispatched once *)

Lemma runs_dispatch_all ms task tu w :
  runs (for_each ms (fun m => dispatch m task tu)) w tt
       (dispatch_all_events task tu (next_uuid w) ms) (dispatch_all_uuids ms).
Proof.
  revert w. induction ms as [|m ms IH]; intros w.
  - apply runs_ret.
  - cbn [for_each].
    eapply runs_bind_eq; [apply runs_dispatch | apply IH | done..].
Qed.

(** The ids of the dispatched messages are new and pairwise distinct. *)
Lemma dispatched_fresh events message_ids :
  NoDup (message_id <$> dispatched events message_ids)
  /\ forall i, i ∈ message_id <$> dispatched events message_ids ->
               i ∉ message_ids.
Proof.
  revert message_ids.
  induction events as [|event rest IH]; intros ids; simpl.
  - split; [constructor | by intros i ?%elem_of_nil].
  - destruct (last (messages event)) as [m|];
      [|split; [constructor | by intros i ?%elem_of_nil]].
    case_bool_decide as Hseen; [apply IH|].
    destruct (IH (ids ∪ {[message_id m]})) as [Hnodup Hnew].
    rewrite fmap_cons. split.
    + constructor; [|done]. intros Hin. apply Hnew in Hin.
      apply Hin, elem_of_union_r. by apply elem_of_singleton.
    + intros i [->|Hin]%elem_of_cons; [done|].
      apply Hnew in Hin. intros Hi. by apply Hin, elem_of_union_l.
Qed.

(** An event whose last message has an id seen before changes neither the
    messages dispatched nor the way the loop ends. *)
Lemma redelivered_skipped pre event post m message_ids :
  last (messages event) = Some m ->
  message_id m ∈ message_ids
  \/ message_id m ∈ message_id <$> dispatched pre message_ids ->
  dispatched (pre ++ event :: post) message_ids
  = dispatched (pre ++ post) message_ids
  /\ stream_outcome (pre ++ event :: post) message_ids
     = stream_outcome (pre ++ post) message_ids.
Proof.
  intros Hlast. revert message_ids.
  induction pre as [|first pre IH]; intros ids Hseen; simpl.
  - destruct Hseen as [Hseen|Hseen]; [|by apply elem_of_nil in Hseen].
    rewrite Hlast. by rewrite bool_decide_true.
  - simpl in Hseen. destruct (last (messages first)) as [m0|]; [|done].
    case_bool_decide as Hm0.
    + by apply IH.
    + destruct (IH (ids ∪ {[message_id m0]})) as [Hd Ho].
      * rewrite fmap_cons in Hseen.
        destruct Hseen as [Hseen|[Heq|Hseen]%elem_of_cons].
        -- left. by apply elem_of_union_l.
        -- left. rewrite Heq. apply elem_of_union_r. by apply elem_of_singleton.
        -- by right.
      * by rewrite Hd, Ho.
Qed.

Lemma handle_structured_response_same_state self other config task tu w :
  get_state (graph other) = get_state (graph self) ->
  _handle_structured_response other config task tu w
  = _handle_structured_response self config task tu w.
Proof.
  intros Hstate. unfold _handle_structured_response. by rewrite Hstate.
Qed.

(** C1.  Within one execution the streaming phase has the effect of
    dispatching the messages of [dispatched], one after the other, and the
    ids of these messages are pairwise distinct: no message id reaches a
    handler twice.  An event whose last message has an id dispatched
    earlier in the execution adds nothing: the execution is the one of the
    same stream without that event. *)
Theorem redelivery_adds_no_events self context request w :
  message context = Some request ->
  let task := task_of context request in
  let events := stream_of self context request in
  (streaming self context request w).2
  = (for_each (dispatched events ∅)
       (fun m => dispatch m task (updater_of task))
       (advance w (task_events context request) 0)).2
  /\ NoDup (message_id <$> dispatched events ∅)
  /\ forall other pre event post m,
       events = pre ++ event :: post ->
       last (messages event) = Some m ->
       message_id m ∈ message_id <$> dispatched pre ∅ ->
       stream_of other context request = pre ++ post ->
       get_state (graph other) = get_state (graph self) ->
       execute other context w = execute self context w.
Proof.
  intros Hmsg task events. split; [|split].
  - unfold streaming. fold task events.
    rewrite stream_loop_trace. by rewrite runs_dispatch_all.
  - apply dispatched_fresh.
  - intros other pre event post m Hevents Hlast Hseen Hother Hstate.
    destruct (redelivered_skipped pre event post m ∅ Hlast (or_intror Hseen))
      as [Hd Ho].
    rewrite !(execute_streaming _ _ _ _ Hmsg), !streaming_trace.
    unfold after_stream, streaming_events, execution_dispatched.
    fold events. rewrite Hother, Hevents, Hd, Ho. simpl.
    destruct (stream_outcome (pre ++ post) ∅); [|done].
    by apply handle_structured_response_same_state.
Qed.

End Executions.

(** ** The reference instance at work *)

Example sample_dispatched :
  dispatched Sample.stream ∅
  = [Sample.human; Sample.ai_call; Sample.tool_result; Sample.ai_done].
Proof. vm_compute. reflexivity. Qed.

Example sample_completed_sink :
  map is_final
    (sink (execute (ext := reference)
             (Sample.executor (Sample.state_with
                                 (SStructured Sample.completed_response)))
             Sample.context Sample.world).2)
  = [false; false; false; false; false; false; false; true].
Proof. vm_compute. reflexivity. Qed.

Example sample_tool_result_json :
  (dispatch (ext := reference) Sample.tool_result Sample.task Sample.updater
     Sample.world).2
  = advance Sample.world
      [status_event Sample.updater working
         {| msg_contextId := "ctx-1";
            msg_messageId := "uuid-0";
            msg_parts := [DataPart (VDict [("a", VInt 1)])];
            msg_metadata := Some [("type", VStr "tool-call-result");
                                  ("toolCallId", VStr "call-1");
                                  ("toolCallName", VStr "get_weather")];
            msg_role := agent;
            msg_taskId := "task-m-0" |} false] 1.
Proof. vm_compute. reflexivity. Qed.

Example sample_tool_result_text :
  (_handle_tool_message (ext := reference) (VStr "not json") "call-1" None
     Sample.task Sample.updater Sample.world).2
  = advance Sample.world
      [status_event Sample.updater working
         {| msg_contextId := "ctx-1";
            msg_messageId := "uuid-0";
            msg_parts := [TextPart (VStr "not json")];
            msg_metadata := Some [("type", VStr "tool-call-result");
                                  ("toolCallId", VStr "call-1");
                                  ("toolCallName", VNone)];
            msg_role := agent;
            msg_taskId := "task-m-0" |} false] 1.
Proof. vm_compute. reflexivity. Qed.

Example sample_text_artifact :
  (_handle_structured_response_artifact (ext := reference)
     {| task_state := completed;
        task_state_message := "ok";
        artifact_title := "Note";
        artifact_description := "A note";
        artifact_output := "plain text" |} Sample.task Sample.world).2
  = advance Sample.world
      [EvArtifact
         {| au_artifact := {| art_artifactId := "uuid-0";
                              art_name := "Note";
                              art_description := "A note";
                              art_parts := [TextPart (VStr "plain text")] |};
            au_contextId := "ctx-1";
            au_taskId := "task-m-0" |}] 1.
Proof. vm_compute. reflexivity. Qed.

Example sample_empty_text :
  _handle_ai_message (ext := reference) (VStr "") [] Sample.task Sample.updater
    Sample.world
  = (Ok tt, Sample.world)
  /\ _handle_ai_message (ext := reference) VNone [] Sample.task Sample.updater
       Sample.world
     = (Ok tt, Sample.world).
Proof. split; reflexivity. Qed.

(** An empty plain string inside a sequence is still a plain-string
    element and yields its event. *)
Example sample_empty_string_element :
  (_handle_ai_message (ext := reference) (VList [VStr ""; VInt 3]) []
     Sample.task Sample.updater Sample.world).2
  = advance Sample.world
      [status_event Sample.updater working
         {| msg_contextId := "ctx-1";
            msg_messageId := "uuid-0";
            msg_parts := [TextPart (VStr "")];
            msg_metadata := None;
            msg_role := agent;
            msg_taskId := "task-m-0" |} false] 1.
Proof. vm_compute. reflexivity. Qed.

(** An event without messages stops the execution with an [IndexError]. *)
Example sample_empty_event :
  (execute (ext := reference)
     {| graph := Sample.graph_of [ {| messages := [] |} ]
                   (Sample.state_with (SStructured Sample.completed_response)) |}
     Sample.context Sample.world).1
  = Raise IndexError.
Proof. vm_compute. reflexivity. Qed.

(** ** The theorems at the sample conversation *)

Lemma execute_without_message_witness :
  execute (ext := reference) (Sample.executor ∅) Sample.no_message Sample.world
  = (Raise (Exception "No message in context"), Sample.world).
Proof.
  apply (execute_without_message (ext := reference)). reflexivity.
Defined.

Lemma other_outcome_one_final_status_witness :
  let self :=
    Sample.executor
      (Sample.state_with (SStructured Sample.input_required_response)) in
  let streamed_to :=
    (streaming (ext := reference) self Sample.context Sample.request
       Sample.world).2 in
  exists streamed final mid,
    execute (ext := reference) self Sample.context Sample.world
    = (Ok tt, advance streamed_to [final] 1)
    /\ sink streamed_to = sink Sample.world ++ streamed
    /\ List.filter is_final (streamed ++ [final]) = [final]
    /\ List.filter is_artifact (streamed ++ [final]) = []
    /\ final
       = EvStatus
           {| su_taskId := "task-m-0";
              su_contextId := "ctx-1";
              su_state := input_required;
              su_message :=
                Some {| msg_contextId := "ctx-1";
                        msg_messageId := mid;
                        msg_parts := [TextPart (VStr "need more info")];
                        msg_metadata := None;
                        msg_role := agent;
                        msg_taskId := "task-m-0" |};
              su_final := true |}.
Proof.
  apply (other_outcome_one_final_status (ext := reference)
           (Sample.executor
              (Sample.state_with (SStructured Sample.input_required_response)))
           Sample.context Sample.request Sample.input_required_response
           (∅ ∪ {["h1"]} ∪ {["a1"]} ∪ {["t1"]} ∪ {["a2"]}) Sample.world).
  - reflexivity.
  - vm_compute. reflexivity.
  - vm_compute. reflexivity.
  - discriminate.
Defined.


Lemma missing_structured_response_raises_witness :
  let streamed_to :=
    streaming (ext := reference) (Sample.executor ∅) Sample.context
      Sample.request Sample.world in
  exists e streamed,
    execute (ext := reference) (Sample.executor ∅) Sample.context Sample.world
    = (Raise e, streamed_to.2)
    /\ (forall ids, streamed_to.1 = Ok ids -> e = no_structured_response)
    /\ sink streamed_to.2 = sink Sample.world ++ streamed
    /\ List.filter is_final streamed = [].
Proof.
  apply (missing_structured_response_raises (ext := reference)
           (Sample.executor ∅) Sample.context Sample.request Sample.world).
  - reflexivity.
  - vm_compute. reflexivity.
Defined.

Lemma falsy_structured_response_as_absent_witness :
  let self := Sample.executor (Sample.state_with SNone) in
  let absent := {| graph := without_structured_response (graph self) |} in
  let streamed_to :=
    streaming (ext := reference) self Sample.context Sample.request
      Sample.world in
  final_value (ext := reference) absent Sample.context Sample.request = None
  /\ execute (ext := reference) self Sample.context Sample.world
     = execute (ext := reference) absent Sample.context Sample.world
  /\ exists e streamed,
       execute (ext := reference) self Sample.context Sample.world
       = (Raise e, streamed_to.2)
       /\ (forall ids, streamed_to.1 = Ok ids -> e = no_structured_response)
       /\ sink streamed_to.2 = sink Sample.world ++ streamed
       /\ List.filter is_final streamed = [].
Proof.
  apply (falsy_structured_response_as_absent (ext := reference)
           (Sample.executor (Sample.state_with SNone))
           Sample.context Sample.request SNone Sample.world).
  - reflexivity.
  - vm_compute. reflexivity.
  - reflexivity.
Defined.

Lemma redelivery_adds_no_events_witness :
  let self := Sample.executor ∅ in
  let other :=
    {| graph := Sample.graph_of (Sample.first_ticks ++ Sample.last_ticks) ∅ |} in
  NoDup (message_id <$> dispatched Sample.stream ∅)
  /\ execute (ext := reference) other Sample.context Sample.world
     = execute (ext := reference) self Sample.context Sample.world.
Proof.
  intros self other.
  pose proof (redelivery_adds_no_events (ext := reference)
                self Sample.context Sample.request Sample.world eq_refl)
    as [_ [Hnodup Hskip]].
  split; [exact Hnodup|].
  apply (Hskip other Sample.first_ticks Sample.redelivery Sample.last_ticks
           Sample.tool_result).
  - reflexivity.
  - reflexivity.
  - refine (bool_decide_unpack _ _). vm_compute. exact I.
  - reflexivity.
  - reflexivity.
Defined.

(** * Further properties of the executor *)

Section ExecutionTraceLemmas.
Context `{ext : Externals}.

(** The finalizer, whatever the persisted state holds. *)
Lemma finalizer_trace self config task tu w :
  _handle_structured_response self config task tu w
  = (finalizer_outcome self config,
     advance w (finalizer_events self config task tu (next_uuid w))
       (length (finalizer_events self config task tu (next_uuid w)))).
Proof.
  unfold finalizer_outcome, finalizer_events.
  destruct (state_get (get_state (graph self) config) "structured_response")
    as [|r|v] eqn:Hget.
  - rewrite advance_nil. apply handle_structured_response_falsy.
    by rewrite Hget.
  - assert (Hval : values (get_state (graph self) config)
                     !! "structured_response" = Some (SStructured r)).
    { unfold state_get in Hget.
      by destruct (values (get_state (graph self) config)
                     !! "structured_response") as [v|]; subst. }
    case_bool_decide as Hstate.
    + apply (runs_handle_structured_response_completed
               _ _ _ _ r _ Hval Hstate).
    + apply (runs_handle_structured_response_other _ _ _ _ r _ Hval Hstate).
  - rewrite advance_nil. unfold _handle_structured_response.
    rewrite Hget. simpl. by destruct (truthy v).
Qed.

Lemma length_finalizer_events self config task tu n :
  length (finalizer_events self config task tu n)
  = length (finalizer_events self config task tu 0).
Proof.
  unfold finalizer_events.
  destruct (state_get _ _) as [|r|v]; [done| |done].
  by case_bool_decide.
Qed.

(** An execution, whatever the stream and the persisted state. *)
Lemma execute_full_trace self context request w :
  message context = Some request ->
  execute self context w
  = (execution_outcome self context request,
     advance w (execution_events self context request (next_uuid w))
       (execution_uuids self context request)).
Proof.
  intros Hmsg. rewrite (execute_streaming _ _ _ _ Hmsg), streaming_trace.
  unfold execution_outcome, execution_events, execution_uuids. simpl.
  destruct (stream_outcome (stream_of self context request) ∅) as [ids|e].
  - rewrite finalizer_trace. unfold after_stream.
    rewrite advance_advance. simpl.
    by rewrite (length_finalizer_events _ _ _ _ (next_uuid w + _)).
  - unfold after_stream. by rewrite app_nil_r, Nat.add_0_r.
Qed.

End ExecutionTraceLemmas.

(** Without a message nothing runs. *)
Lemma no_message_raises `{ext : Externals} self context w :
  message context = None ->
  execute self context w = (Raise (Exception "No message in context"), w).
Proof. intros Hmsg. unfold execute. by rewrite Hmsg. Qed.

(** ** What every execution keeps *)

Section ExecutionInvariants.
Context `{ext : Externals}.

Lemma text_events_Forall (P : Event -> Prop) task tu :
  (forall n text,
      P (status_event tu working
           (text_message n text (task_contextId task) (task_id task)) false)) ->
  forall n texts, Forall P (text_events task tu n texts).
Proof.
  intros HP n texts. revert n.
  induction texts as [|t ts IH]; intros n; simpl; constructor; auto.
Qed.

Lemma tool_call_events_Forall (P : Event -> Prop) task tu :
  (forall n tc, P (status_event tu working (tool_call_message n tc task) false)) ->
  forall n tcs, Forall P (tool_call_events task tu n tcs).
Proof.
  intros HP n tcs. revert n.
  induction tcs as [|t ts IH]; intros n; simpl; constructor; auto.
Qed.

Lemma dispatch_all_events_Forall (P : Event -> Prop) task tu :
  (forall n m, Forall P (dispatch_events task tu n m)) ->
  forall n ms, Forall P (dispatch_all_events task tu n ms).
Proof.
  intros HP n ms. revert n.
  induction ms as [|m ms IH]; intros n; simpl; [constructor|].
  apply Forall_app; split; [apply HP | apply IH].
Qed.

Lemma dispatch_events_bound task n m :
  Forall (bound_to task) (dispatch_events task (updater_of task) n m).
Proof.
  destruct m as [i content tcs|i content tcid name|i content]; simpl.
  - apply Forall_app; split.
    + apply text_events_Forall. intros k text. simpl.
      repeat split. eexists. by repeat split.
    + apply tool_call_events_Forall. intros k tc. simpl.
      repeat split. eexists. by repeat split.
  - constructor; [|constructor]. simpl.
    repeat split. eexists. by repeat split.
  - constructor.
Qed.

Lemma finalizer_events_bound self config task n :
  Forall (bound_to task)
         (finalizer_events self config task (updater_of task) n).
Proof.
  unfold finalizer_events.
  destruct (state_get _ _) as [|r|v]; [constructor| |constructor].
  case_bool_decide; repeat constructor; simpl;
    try (eexists; by repeat split).
Qed.

Lemma filter_is_task_working (evs : list Event) :
  Forall (fun ev => is_working_update ev = true) evs ->
  List.filter is_task evs = [].
Proof.
  intros Hall. apply filter_none. eapply Forall_impl; [exact Hall|].
  by intros [t|e|e].
Qed.

Lemma finalizer_events_no_task self config task tu n :
  List.filter is_task (finalizer_events self config task tu n) = [].
Proof.
  unfold finalizer_events.
  destruct (state_get _ _) as [|r|v]; [done| |done].
  by case_bool_decide.
Qed.

(** X1.  An execution returns normally exactly when it has emitted its
    final status event.  When it returns, the events it has appended end
    with the one final status event and hold at most one artifact event;
    when it raises, whatever the error, they hold no final status event and
    no artifact event.  What was on the queue before the call stays in
    front. *)
Theorem execute_returns_iff_final_status self context w :
  exists evs k,
    (execute self context w).2 = advance w evs k
    /\ match (execute self context w).1 with
       | Ok _ =>
           exists before final,
             evs = before ++ [final]
             /\ is_final final = true
             /\ List.filter is_final before = []
             /\ length (List.filter is_artifact evs) <= 1
       | Raise _ =>
           List.filter is_final evs = [] /\ List.filter is_artifact evs = []
       end.
Proof.
  destruct (message context) as [request|] eqn:Hmsg.
  - exists (execution_events self context request (next_uuid w)),
           (execution_uuids self context request).
    rewrite (execute_full_trace _ _ _ _ Hmsg). simpl. split; [done|].
    unfold execution_outcome, execution_events.
    pose proof (streaming_events_filter_final self context request
                  (next_uuid w)) as Hfin.
    pose proof (streaming_events_filter_artifact self context request
                  (next_uuid w)) as Hart.
    destruct (stream_outcome (stream_of self context request) ∅) as [ids|e].
    + unfold finalizer_outcome, finalizer_events.
      destruct (state_get _ _) as [|r|v].
      * by rewrite app_nil_r.
      * case_bool_decide.
        -- eexists (_ ++ [_]), _. rewrite <- app_assoc. split; [done|].
           split; [done|]. rewrite !List.filter_app, Hfin, Hart. simpl.
           split; [done | lia].
        -- eexists _, _. split; [done|]. split; [done|].
           rewrite List.filter_app, Hart. simpl. split; [done | lia].
      * rewrite app_nil_r. by destruct (truthy v).
    + by rewrite app_nil_r.
  - exists [], 0. rewrite (no_message_raises self context w Hmsg).
    simpl. by rewrite advance_nil.
Qed.

(** X2.  With a message in the request, an execution that finds no current
    task announces the task [new_task] builds as its very first event; one
    that finds a current task announces nothing.  No other task event is
    ever appended. *)
Theorem execute_announces_new_task_first self context request w :
  message context = Some request ->
  exists evs k,
    (execute self context w).2
    = advance w (match current_task context with
                 | Some _ => []
                 | None => [EvTask (new_task request)]
                 end ++ evs) k
    /\ List.filter is_task evs = [].
Proof.
  intros Hmsg. rewrite (execute_full_trace _ _ _ _ Hmsg). simpl.
  unfold execution_events, streaming_events. rewrite <- app_assoc.
  eexists _, _. split; [done|].
  rewrite List.filter_app. rewrite filter_is_task_working
    by apply dispatch_all_events_working.
  destruct (stream_outcome _ _); [|done].
  apply finalizer_events_no_task.
Qed.

(** X3.  Every event of an execution belongs to the task the execution
    works on, the current task of the request or else the new one: status
    and artifact updates carry its id and its context id, and so does the
    agent message inside each status update. *)
Theorem execute_events_bound_to_task self context request w :
  message context = Some request ->
  let task := match current_task context with
              | Some task => task
              | None => new_task request
              end in
  exists evs k,
    (execute self context w).2 = advance w evs k
    /\ Forall (bound_to task) evs.
Proof.
  intros Hmsg task. rewrite (execute_full_trace _ _ _ _ Hmsg). simpl.
  eexists _, _. split; [done|].
  unfold execution_events, streaming_events. fold (task_of context request).
  change (task_of context request) with task.
  repeat (apply Forall_app; split).
  - unfold task_events. subst task.
    destruct (current_task context); by repeat constructor.
  - apply dispatch_all_events_Forall. apply dispatch_events_bound.
  - destruct (stream_outcome _ _); [|constructor].
    apply finalizer_events_bound.
Qed.

End ExecutionInvariants.

(** ** The stream loop *)

Section StreamLoop.
Context `{ext : Externals}.

(** Consuming [pre ++ post] is consuming [pre], then [post]. *)
Lemma stream_loop_append pre post message_ids task tu w :
  stream_loop (pre ++ post) message_ids task tu w
  = (stream_loop pre message_ids task tu
       ≫= fun ids => stream_loop post ids task tu) w.
Proof.
  revert message_ids w.
  induction pre as [|event pre IH]; intros ids w; simpl; [done|].
  destruct (last (messages event)) as [m|]; [|done].
  case_bool_decide; [apply IH|].
  unfold mbind, Exec_bind in *.
  destruct (dispatch m task tu w) as [[[]|e] w']; [apply IH | done].
Qed.


(** The ids seen when the stream has been consumed. *)
Lemma stream_outcome_ids events message_ids ids :
  stream_outcome events message_ids = Ok ids ->
  ids = message_ids ∪ list_to_set (message_id <$> omap last_message events)
  /\ forallb has_messages events = true.
Proof.
  revert message_ids.
  induction events as [|event rest IHrest]; intros seen; simpl.
  - intros [= <-]. split; [|done]. by rewrite union_empty_r_L.
  - unfold last_message at 1, has_messages.
    destruct (last (messages event)) as [m|] eqn:Hlast; [|done].
    destruct (messages event) as [|m0 ms]; [done|]. simpl.
    case_bool_decide as Hseen; intros Hout;
      destruct (IHrest _ Hout) as [-> Hall]; (split; [|done]).
    + apply set_eq. intros i. rewrite !elem_of_union, elem_of_singleton.
      split; [tauto|]. intros [?|[->|?]]; tauto.
    + apply set_eq. intros i. rewrite !elem_of_union, elem_of_singleton.
      tauto.
Qed.

(** Events whose last messages have all been seen change nothing. *)
Lemma stream_all_seen events message_ids :
  forallb has_messages events = true ->
  (forall i, i ∈ message_id <$> omap last_message events -> i ∈ message_ids) ->
  dispatched events message_ids = []
  /\ stream_outcome events message_ids = Ok message_ids.
Proof.
  induction events as [|event rest IHrest]; simpl; [done|].
  unfold last_message at 1, has_messages.
  destruct (last (messages event)) as [m|] eqn:Hlast.
  - intros [_ Hall]%andb_true_iff Hseen. simpl in Hseen.
    rewrite bool_decide_true by (apply Hseen; left).
    apply IHrest; [done|]. intros i Hi. apply Hseen. by right.
  - apply last_None in Hlast. by rewrite Hlast.
Qed.

(** X8.  When the loop has consumed the stream, the ids it has seen are the
    ids it started with and the ids of the last message of every event,
    nothing else. *)
Theorem stream_loop_seen_ids events message_ids task tu w ids :
  (stream_loop events message_ids task tu w).1 = Ok ids ->
  ids = message_ids
        ∪ list_to_set (message_id <$> omap last_message events).
Proof.
  rewrite stream_loop_trace. simpl. intros Hout.
  by apply stream_outcome_ids in Hout as [-> _].
Qed.

(** Consuming the same events a second time changes nothing. *)
Lemma stream_loop_replay events task tu w :
  stream_loop (events ++ events) ∅ task tu w
  = stream_loop events ∅ task tu w.
Proof.
  rewrite stream_loop_append. unfold mbind, Exec_bind.
  rewrite (stream_loop_trace events ∅).
  destruct (stream_outcome events ∅) as [ids|e] eqn:Hout; [|done].
  apply stream_outcome_ids in Hout as [Hids Hall].
  destruct (stream_all_seen events ids Hall) as [Hd Ho].
  { intros i Hi. rewrite Hids. apply elem_of_union_r.
    by apply elem_of_list_to_set. }
  rewrite stream_loop_trace, Hd, Ho. simpl. by rewrite advance_nil.
Qed.

(** The loop looks at the last message of each event only. *)
Lemma stream_last_messages events events' message_ids :
  last_message <$> events = last_message <$> events' ->
  dispatched events message_ids = dispatched events' message_ids
  /\ stream_outcome events message_ids = stream_outcome events' message_ids.
Proof.
  revert events' message_ids.
  induction events as [|event rest IHrest]; intros [|event' rest'] ids Heq;
    try done.
  simpl in Heq. injection Heq as Hlast Hrest. simpl.
  unfold last_message in Hlast. rewrite <- Hlast.
  destruct (last (messages event)) as [m|]; [|done].
  case_bool_decide.
  - by apply IHrest.
  - destruct (IHrest rest' (ids ∪ {[message_id m]}) Hrest) as [-> ->]. done.
Qed.


(** X12.  A message whose id is not the id of the last message of any
    earlier event is dispatched when its event arrives: the loop consumes
    the events before it, dispatches the message in the world they have
    left, records its id and goes on with the events after it. *)
Theorem first_delivery_is_dispatched pre event post m task tu w :
  forallb has_messages pre = true ->
  last (messages event) = Some m ->
  message_id m ∉ message_id <$> omap last_message pre ->
  stream_loop (pre ++ event :: post) ∅ task tu w
  = (stream_loop pre ∅ task tu
       ≫= fun ids =>
            dispatch m task tu;;
            stream_loop post (ids ∪ {[message_id m]}) task tu) w.
Proof.
  intros Hpre Hlast Hnew. rewrite stream_loop_append.
  unfold mbind, Exec_bind.
  rewrite !(stream_loop_trace pre ∅).
  destruct (stream_outcome pre ∅) as [ids|e] eqn:Hout; [|done].
  apply stream_outcome_ids in Hout as [Hids _]. simpl. rewrite Hlast.
  rewrite bool_decide_false; [done|].
  rewrite Hids. intros [Hin|Hin]%elem_of_union.
  - by apply elem_of_empty in Hin.
  - by apply elem_of_list_to_set in Hin.
Qed.

End StreamLoop.

(** ** Executions and the graph *)

Section ExecutionsAndGraph.
Context `{ext : Externals}.

Lemma finalizer_same_state self other config task tu n :
  get_state (graph other) config = get_state (graph self) config ->
  finalizer_outcome other config = finalizer_outcome self config
  /\ finalizer_events other config task tu n
     = finalizer_events self config task tu n.
Proof.
  intros Hstate. unfold finalizer_outcome, finalizer_events.
  by rewrite Hstate.
Qed.

(** Two graphs with the same persisted state whose streams are dispatched
    alike give the same execution. *)
Lemma execute_same_dispatch self other context request w :
  message context = Some request ->
  dispatched (stream_of other context request) ∅
  = dispatched (stream_of self context request) ∅ ->
  stream_outcome (stream_of other context request) ∅
  = stream_outcome (stream_of self context request) ∅ ->
  get_state (graph other) (config_of (task_of context request))
  = get_state (graph self) (config_of (task_of context request)) ->
  execute other context w = execute self context w.
Proof.
  intros Hmsg Hd Ho Hstate. rewrite !(execute_full_trace _ _ _ _ Hmsg).
  unfold execution_outcome, execution_events, execution_uuids,
    streaming_events, execution_dispatched.
  rewrite Hd, Ho.
  destruct (stream_outcome (stream_of self context request) ∅); [|done].
  destruct (finalizer_same_state self other _
              (task_of context request)
              (updater_of (task_of context request)) 0 Hstate) as [-> ->].
  by destruct (finalizer_same_state self other _
                 (task_of context request)
                 (updater_of (task_of context request))
                 (next_uuid w
                  + dispatch_all_uuids
                      (dispatched (stream_of self context request) ∅))
                 Hstate) as [_ ->].
Qed.

(** X10.  An execution consults the graph at one place only: the stream
    opened on the single user message holding the user input, and the
    state read back, both under the thread id equal to the context id of
    the task.  Graphs that agree there give the same execution. *)
Theorem execute_consults_graph_at_context_id self other context request w :
  message context = Some request ->
  let task := match current_task context with
              | Some task => task
              | None => new_task request
              end in
  let config := {| thread_id := task_contextId task |} in
  let inputs := {| in_messages := [("user", get_user_input context)] |} in
  astream (graph other) inputs config = astream (graph self) inputs config ->
  get_state (graph other) config = get_state (graph self) config ->
  execute other context w = execute self context w.
Proof.
  intros Hmsg task config inputs Hstream Hstate.
  apply (execute_same_dispatch _ _ _ _ _ Hmsg); [| |exact Hstate].
  - unfold stream_of, inputs_of, config_of. fold (task_of context request).
    change (task_of context request) with task. fold config inputs.
    by rewrite Hstream.
  - unfold stream_of, inputs_of, config_of.
    change (task_of context request) with task. fold config inputs.
    by rewrite Hstream.
Qed.

(** X4.  Of every event of the stream only the last message counts: two
    streams that agree on the last message of each event, read against the
    same persisted state, give the same execution.  A message that is never
    the last one of an event is never forwarded. *)
Theorem execute_reads_last_messages self other context request w :
  message context = Some request ->
  last_message <$> stream_of other context request
  = last_message <$> stream_of self context request ->
  get_state (graph other) = get_state (graph self) ->
  execute other context w = execute self context w.
Proof.
  intros Hmsg Hlast Hstate.
  destruct (stream_last_messages _ _ ∅ Hlast) as [Hd Ho].
  apply (execute_same_dispatch _ _ _ _ _ Hmsg Hd Ho). by rewrite Hstate.
Qed.

(** X5.  Replaying the whole stream adds nothing: an execution whose graph
    streams every event a second time, after the first pass, is the
    execution of the stream streamed once. *)
Theorem replayed_stream_adds_nothing self other context request w :
  message context = Some request ->
  stream_of other context request
  = stream_of self context request ++ stream_of self context request ->
  get_state (graph other) = get_state (graph self) ->
  execute other context w = execute self context w.
Proof.
  intros Hmsg Hreplay Hstate.
  rewrite !(execute_streaming _ _ _ _ Hmsg). unfold streaming.
  rewrite Hreplay, stream_loop_replay.
  destruct (stream_loop _ _ _ _ _) as [[ids|e] w']; simpl; [|done].
  by apply handle_structured_response_same_state.
Qed.








End ExecutionsAndGraph.

(** ** The further properties at the sample conversation *)

Lemma execute_announces_new_task_first_witness :
  exists evs k,
    (execute (ext := reference) (Sample.executor Variants.completed_state)
       Sample.context Sample.world).2
    = advance Sample.world ([EvTask Sample.task] ++ evs) k
    /\ List.filter is_task evs = [].
Proof.
  apply (execute_announces_new_task_first (ext := reference)
           (Sample.executor Variants.completed_state)
           Sample.context Sample.request Sample.world).
  reflexivity.
Defined.

Lemma execute_events_bound_to_task_witness :
  exists evs k,
    (execute (ext := reference) (Sample.executor Variants.completed_state)
       Sample.context Sample.world).2
    = advance Sample.world evs k
    /\ Forall (bound_to Sample.task) evs.
Proof.
  apply (execute_events_bound_to_task (ext := reference)
           (Sample.executor Variants.completed_state)
           Sample.context Sample.request Sample.world).
  reflexivity.
Defined.

Lemma execute_reads_last_messages_witness :
  execute (ext := reference)
    {| graph := Sample.graph_of Variants.last_only Variants.completed_state |}
    Sample.context Sample.world
  = execute (ext := reference) (Sample.executor Variants.completed_state)
      Sample.context Sample.world.
Proof.
  apply (execute_reads_last_messages (ext := reference)
           (Sample.executor Variants.completed_state)
           {| graph := Sample.graph_of Variants.last_only
                         Variants.completed_state |}
           Sample.context Sample.request Sample.world).
  - reflexivity.
  - reflexivity.
  - reflexivity.
Defined.

Lemma replayed_stream_adds_nothing_witness :
  execute (ext := reference)
    {| graph := Sample.graph_of (Sample.stream ++ Sample.stream)
                  Variants.completed_state |}
    Sample.context Sample.world
  = execute (ext := reference) (Sample.executor Variants.completed_state)
      Sample.context Sample.world.
Proof.
  apply (replayed_stream_adds_nothing (ext := reference)
           (Sample.executor Variants.completed_state)
           {| graph := Sample.graph_of (Sample.stream ++ Sample.stream)
                         Variants.completed_state |}
           Sample.context Sample.request Sample.world).
  - reflexivity.
  - reflexivity.
  - reflexivity.
Defined.


Lemma stream_loop_seen_ids_witness :
  (∅ ∪ {["h1"]} ∪ {["a1"]} ∪ {["t1"]} ∪ {["a2"]} : gset string)
  = ∅ ∪ list_to_set (message_id <$> omap last_message Sample.stream).
Proof.
  apply (stream_loop_seen_ids (ext := reference) Sample.stream ∅
           Sample.task Sample.updater Sample.world).
  vm_compute. reflexivity.
Defined.

Lemma execute_consults_graph_at_context_id_witness :
  execute (ext := reference)
    {| graph := Variants.graph_at_context Variants.completed_state |}
    Sample.context Sample.world
  = execute (ext := reference) (Sample.executor Variants.completed_state)
      Sample.context Sample.world.
Proof.
  apply (execute_consults_graph_at_context_id (ext := reference)
           (Sample.executor Variants.completed_state)
           {| graph := Variants.graph_at_context Variants.completed_state |}
           Sample.context Sample.request Sample.world).
  - reflexivity.
  - reflexivity.
  - reflexivity.
Defined.

Lemma first_delivery_is_dispatched_witness :
  stream_loop (ext := reference) Sample.stream ∅ Sample.task Sample.updater
    Sample.world
  = (stream_loop (ext := reference)
       [ {| messages := [Sample.human] |};
         {| messages := [Sample.human; Sample.ai_call] |} ] ∅
       Sample.task Sample.updater
       ≫= fun ids =>
            dispatch (ext := reference) Sample.tool_result Sample.task
              Sample.updater;;
            stream_loop (ext := reference)
              (Sample.redelivery :: Sample.last_ticks)
              (ids ∪ {["t1"]}) Sample.task Sample.updater) Sample.world.
Proof.
  apply (first_delivery_is_dispatched (ext := reference)
           [ {| messages := [Sample.human] |};
             {| messages := [Sample.human; Sample.ai_call] |} ]
           {| messages := [Sample.human; Sample.ai_call; Sample.tool_result] |}
           (Sample.redelivery :: Sample.last_ticks)
           Sample.tool_result Sample.task Sample.updater Sample.world).
  - reflexivity.
  - reflexivity.
  - refine (bool_decide_unpack _ _). vm_compute. exact I.
Defined.
